(** * House price estimator: training-data synthesis and the serving script

    A shallow embedding of [src/train_global.py] (feature synthesis and
    composite target) and of one run of the Streamlit script [src/app.py].

    Floating-point columns are modelled as exact rationals [Q]; integer
    columns as [Z].  The numpy global generator is numpy's legacy
    [RandomState]: an MT19937 bit generator plus the cached second Gaussian
    of the polar method.  The MT19937 transition itself and the
    floating-point factor [sqrt(-2 log r2 / r2)] of the polar method are
    left abstract (section variables); everything numpy does around them
    (seeding, 32-bit draws, 53-bit doubles, rejection loops, the cumulative
    search of [choice], masked rejection of [randint]) is written out.
    Rejection loops need not terminate, so draws are relations. *)

From Stdlib Require Import ZArith QArith Qround Qabs Qminmax List String Bool Lia Lqa.
Import ListNotations.

Module TrainGlobal.

Section Synthesis.

(** The MT19937 bit generator: its state, [mt19937_seed] and one 32-bit
    output [mt19937_next32]. *)
Variable MT : Type.
Variable mt19937_seed : Z -> MT.
Variable mt19937_next32 : MT -> Z * MT.
(** [f = sqrt(-2.0 * log(r2) / r2)] of [legacy_gauss], computed in floating point. *)
Variable polar_factor : Q -> Q.

(** [aug_bitgen_t]: bit generator state, [has_gauss] and [gauss]. *)
Record legacy_state := mkLegacy {
  bitgen : MT;
  has_gauss : bool;
  gauss : Q
}.

(** [RandomState._legacy_seeding] for an integer seed: range check, then
    [mt19937_seed] and [_reset_state_variables].  The prior state is
    overwritten. *)
Definition legacy_seeding (seed : Z) (prior : legacy_state) : option legacy_state :=
  if (seed <? 0)%Z || (4294967295 <? seed)%Z then None
  else Some (mkLegacy (mt19937_seed seed) false 0).

Definition next_uint32 (st : legacy_state) : Z * legacy_state :=
  let '(w, m) := mt19937_next32 (bitgen st) in
  (Z.land w 4294967295, mkLegacy m (has_gauss st) (gauss st)).

(** [mt19937_next_double]: [(a * 67108864.0 + b) / 9007199254740992.0]. *)
Definition legacy_double (st : legacy_state) : Q * legacy_state :=
  let '(w1, st1) := next_uint32 st in
  let '(w2, st2) := next_uint32 st1 in
  let a := Z.shiftr w1 5 in
  let b := Z.shiftr w2 6 in
  ((a * 67108864 + b)%Z # 9007199254740992, st2).

(** [random_sample(size=n)]: [n] doubles in sequence. *)
Fixpoint random_sample (n : nat) (st : legacy_state) : list Q * legacy_state :=
  match n with
  | O => ([], st)
  | S k =>
      let '(u, st1) := legacy_double st in
      let '(us, st2) := random_sample k st1 in
      (u :: us, st2)
  end.

(** Loop condition of [legacy_gauss]: [r2 >= 1.0 || r2 == 0.0]. *)
Definition polar_rejects (x1 x2 : Q) : bool :=
  let r2 := x1 * x1 + x2 * x2 in
  Qle_bool 1 r2 || Qeq_bool r2 0.

(** The [do { ... } while (...)] loop of [legacy_gauss]. *)
Inductive polar_loop : legacy_state -> Q -> Q -> legacy_state -> Prop :=
| polar_accept st u1 st1 u2 st2 :
    legacy_double st = (u1, st1) ->
    legacy_double st1 = (u2, st2) ->
    polar_rejects (2 * u1 - 1) (2 * u2 - 1) = false ->
    polar_loop st (2 * u1 - 1) (2 * u2 - 1) st2
| polar_retry st u1 st1 u2 st2 x1 x2 st' :
    legacy_double st = (u1, st1) ->
    legacy_double st1 = (u2, st2) ->
    polar_rejects (2 * u1 - 1) (2 * u2 - 1) = true ->
    polar_loop st2 x1 x2 st' ->
    polar_loop st x1 x2 st'.

(** [legacy_gauss]: return the cached value, or run the polar method,
    cache [f * x1] and return [f * x2]. *)
Inductive legacy_gauss : legacy_state -> Q -> legacy_state -> Prop :=
| gauss_cached st :
    has_gauss st = true ->
    legacy_gauss st (gauss st) (mkLegacy (bitgen st) false 0)
| gauss_polar st x1 x2 st' :
    has_gauss st = false ->
    polar_loop st x1 x2 st' ->
    legacy_gauss st (polar_factor (x1 * x1 + x2 * x2) * x2)
      (mkLegacy (bitgen st') true (polar_factor (x1 * x1 + x2 * x2) * x1)).

(** [legacy_normal(loc, scale) = loc + scale * legacy_gauss]. *)
Inductive legacy_normal (loc scale : Q) : legacy_state -> Q -> legacy_state -> Prop :=
| normal_draw st g st' :
    legacy_gauss st g st' ->
    legacy_normal loc scale st (loc + scale * g) st'.

(** [buffered_bounded_masked_uint32]:
    [while ((val = (next_uint32() & mask)) > rng);]. *)
Inductive bounded_masked_uint32 (rng mask : Z) : legacy_state -> Z -> legacy_state -> Prop :=
| masked_accept st w st' :
    next_uint32 st = (w, st') ->
    (Z.land w mask <= rng)%Z ->
    bounded_masked_uint32 rng mask st (Z.land w mask) st'
| masked_retry st w st' v st'' :
    next_uint32 st = (w, st') ->
    (rng < Z.land w mask)%Z ->
    bounded_masked_uint32 rng mask st' v st'' ->
    bounded_masked_uint32 rng mask st v st''.

(** Filling an output array of [n] elements with one draw per element. *)
Inductive fill {A : Type} (draw : legacy_state -> A -> legacy_state -> Prop)
  : nat -> legacy_state -> list A -> legacy_state -> Prop :=
| fill_nil st : fill draw O st [] st
| fill_cons n st x st1 xs st2 :
    draw st x st1 ->
    fill draw n st1 xs st2 ->
    fill draw (S n) st (x :: xs) st2.

(** [gen_mask]: smear the highest set bit of [max] downwards. *)
Definition gen_mask (max : Z) : Z :=
  let m1 := Z.lor max (Z.shiftr max 1) in
  let m2 := Z.lor m1 (Z.shiftr m1 2) in
  let m3 := Z.lor m2 (Z.shiftr m2 4) in
  let m4 := Z.lor m3 (Z.shiftr m3 8) in
  let m5 := Z.lor m4 (Z.shiftr m4 16) in
  Z.lor m5 (Z.shiftr m5 32).

(** [np.cumsum]. *)
Fixpoint cumsum_from (acc : Q) (p : list Q) : list Q :=
  match p with
  | [] => []
  | x :: xs => (acc + x) :: cumsum_from (acc + x) xs
  end.

Definition cumsum (p : list Q) : list Q := cumsum_from 0 p.

(** [cdf /= cdf[-1]]. *)
Definition normalize_cdf (cdf : list Q) : list Q :=
  map (fun c => c / last cdf 0) cdf.

(** [cdf.searchsorted(u, side='right')] on a sorted array: the first index
    whose entry is strictly greater than [u], or the length. *)
Fixpoint searchsorted_right (cdf : list Q) (u : Q) : nat :=
  match cdf with
  | [] => O
  | c :: cs => if Qle_bool c u then S (searchsorted_right cs u) else O
  end.

Definition Qsum (p : list Q) : Q := fold_right Qplus 0 p.

(** The checks of [RandomState.choice] on [p]: same size as [a], no
    negative entry, [abs(sum(p) - 1) <= atol] with
    [atol = sqrt(finfo(float64).eps) = 2^-26]. *)
Definition choice_p_ok (a : list Z) (p : list Q) : bool :=
  Nat.eqb (List.length p) (List.length a)
  && forallb (fun x => Qle_bool 0 x) p
  && Qle_bool (Qabs (Qsum p - 1)) (1 # 67108864).

(** [RandomState.choice(a, size=n, p=p)] (with replacement): checks on
    [p], [n] uniform doubles, [idx = cdf.searchsorted(u, side='right')],
    result [a[idx]] (an out-of-range [idx] raises, no derivation). *)
Inductive legacy_choice (a : list Z) (p : list Q) (n : nat) (st : legacy_state)
  : list Z -> legacy_state -> Prop :=
| choice_draw us xs st' :
    choice_p_ok a p = true ->
    random_sample n st = (us, st') ->
    Forall2 (fun u x =>
      nth_error a (searchsorted_right (normalize_cdf (cumsum p)) u) = Some x) us xs ->
    legacy_choice a p n st xs st'.

(** [RandomState.randint(low, high, size=n)] for a range below [2^32]:
    [rng = high - 1 - low]; no draw when [rng = 0], otherwise
    [low + bounded_masked_uint32(rng, gen_mask(rng))] per element. *)
Inductive legacy_randint (low high : Z) (n : nat) (st : legacy_state)
  : list Z -> legacy_state -> Prop :=
| randint_const :
    (low < high)%Z ->
    (high - 1 - low = 0)%Z ->
    legacy_randint low high n st (repeat low n) st
| randint_masked vs st' :
    (low < high)%Z ->
    (0 < high - 1 - low <= 4294967295)%Z ->
    fill (bounded_masked_uint32 (high - 1 - low) (gen_mask (high - 1 - low))) n st vs st' ->
    legacy_randint low high n st (map (Z.add low) vs) st'.

(** ** [src/train_global.py] *)

(** A row of [fetch_california_housing(as_frame=True).frame], restricted to
    the columns the script reads. *)
Record base_row := mkBase {
  Latitude : Q;
  Longitude : Q;
  HouseAge : Q;
  MedHouseVal : Q
}.

(** A row of the augmented frame [df]: the base columns read, then the
    columns the script adds, in the order it adds them. *)
Record aug_row := mkRow {
  row_Latitude : Q;
  row_Longitude : Q;
  row_HouseAge : Q;
  row_MedHouseVal : Q;
  TotalArea : Z;
  GarageCars : Z;
  Bedrooms : Z;
  FinalPrice : Q
}.

(** [.astype(int)] on a float: C cast, truncation toward zero. *)
Definition astype_int (x : Q) : Z :=
  if Qle_bool 0 x then Qfloor x else Qceiling x.

(** [Series.clip(lo, hi)] on an integer column. *)
Definition clip_int (lo hi x : Z) : Z :=
  if (x <? lo)%Z then lo else if (hi <? x)%Z then hi else x.

(** [Series.clip(lower=lo)] on a float column. *)
Definition clip_lower (lo x : Q) : Q :=
  if Qle_bool lo x then x else lo.

(** Lines 29-30: [normal(...).astype(int)], then [.clip(500, 5000)]. *)
Definition total_area_of (draw : Q) : Z :=
  clip_int 500 5000 (astype_int draw).

(** Lines 53-58. *)
Definition structure_component (area garage beds : Z) (age : Q) : Q :=
  inject_Z area * (15 # 10000) + inject_Z garage * (15 # 100)
  + inject_Z beds * (10 # 100) - age * (2 # 100).

(** Lines 61-63: [location_component + structure_component], then
    [.clip(lower=0.5)]. *)
Definition final_price (location structure : Q) : Q :=
  clip_lower (1 # 2) (location + structure).

(** The column assignments of lines 29-63, element by element. *)
Fixpoint augment (base : list base_row) (areas garages beds : list Z) : list aug_row :=
  match base, areas, garages, beds with
  | b :: bs, a :: areas', g :: garages', d :: beds' =>
      mkRow (Latitude b) (Longitude b) (HouseAge b) (MedHouseVal b) a g d
        (final_price (MedHouseVal b) (structure_component a g d (HouseAge b)))
      :: augment bs areas' garages' beds'
  | _, _, _, _ => []
  end.

Definition garage_values : list Z := [0; 1; 2; 3]%Z.
Definition garage_p : list Q := [1 # 10; 3 # 10; 5 # 10; 1 # 10].

(** Lines 25-63 with the seed as a parameter: seed the global generator,
    draw the [TotalArea], [GarageCars] and [Bedrooms] columns in that order,
    and build the augmented frame.  [prior] is the global generator state
    before the script runs. *)
Inductive synthesize (seed : Z) (prior : legacy_state) (base : list base_row)
  : list aug_row -> Prop :=
| synthesize_run st0 draws st1 garages st2 beds st3 :
    legacy_seeding seed prior = Some st0 ->
    fill (legacy_normal 1800 600) (List.length base) st0 draws st1 ->
    legacy_choice garage_values garage_p (List.length base) st1 garages st2 ->
    legacy_randint 1 6 (List.length base) st2 beds st3 ->
    synthesize seed prior base (augment base (map total_area_of draws) garages beds).

(** [np.random.seed(42)]. *)
Definition train_seed : Z := 42.

Definition train_global (prior : legacy_state) (base : list base_row) (out : list aug_row) : Prop :=
  synthesize train_seed prior base out.

(** Line 66. *)
Definition feature_cols : list string :=
  ["Latitude"; "Longitude"; "TotalArea"; "GarageCars"; "Bedrooms"; "HouseAge"]%string.

(** The columns of [df] for one row, in frame order: the California
    columns read ([HouseAge], [Latitude], [Longitude], [MedHouseVal]), then
    the columns added by the script. *)
Definition df_columns (r : aug_row) : list (string * Q) :=
  [("HouseAge", row_HouseAge r); ("Latitude", row_Latitude r);
   ("Longitude", row_Longitude r); ("MedHouseVal", row_MedHouseVal r);
   ("TotalArea", inject_Z (TotalArea r)); ("GarageCars", inject_Z (GarageCars r));
   ("Bedrooms", inject_Z (Bedrooms r)); ("FinalPrice", FinalPrice r)]%string.

Fixpoint column_lookup (c : string) (row : list (string * Q)) : option Q :=
  match row with
  | [] => None
  | (k, v) :: row' => if String.eqb k c then Some v else column_lookup c row'
  end.

(** [df[cols]] on one row: the columns in the order of [cols]; a missing
    name raises [KeyError]. *)
Fixpoint select_columns (cols : list string) (row : list (string * Q))
  : option (list (string * Q)) :=
  match cols with
  | [] => Some []
  | c :: cs =>
      match column_lookup c row, select_columns cs row with
      | Some v, Some rest => Some ((c, v) :: rest)
      | _, _ => None
      end
  end.

(** Line 67: [X = df[feature_cols]], one row. *)
Definition X_row (r : aug_row) : option (list (string * Q)) :=
  select_columns feature_cols (df_columns r).

End Synthesis.

(** A sample bit generator for concrete runs: every 32-bit output is
    [2^31], so every double is [1/2 + 2^-28]; and a constant polar factor. *)
Definition sample_seed (s : Z) : Z := s.
Definition sample_next32 (m : Z) : Z * Z := (2147483648, m + 1)%Z.
Definition sample_polar_factor (r2 : Q) : Q := 1.

(** One row: Latitude 34.05, Longitude -118.25, HouseAge 10, MedHouseVal 2.0. *)
Definition sample_base : list base_row := [mkBase (3405 # 100) (-11825 # 100) 10 2].

(** A prior global generator state, holding a cached Gaussian. *)
Definition sample_prior : legacy_state Z := mkLegacy Z 7%Z true 3.

(** [x1 = x2 = 2u - 1] of the first polar round of the sample generator. *)
Definition sample_unit : Q := 2 * (4503599660924928 # 9007199254740992) - 1.

(** The augmented frame of [sample_base] for any polar factor [pf]. *)
Definition sample_out_pf (pf : Q -> Q) : list aug_row :=
  augment sample_base
    (map total_area_of
       [1800 + 600 * (pf (sample_unit * sample_unit + sample_unit * sample_unit) * sample_unit)])
    [2%Z] [1%Z].

(** A polar factor making the first draw [1800 + 600 * 7/6000 = 1800.7]. *)
Definition frac_polar_factor (r2 : Q) : Q := (7 # 6000) * 134217728.

(** Its augmented frame: TotalArea 1800, GarageCars 2, Bedrooms 1. *)
Definition sample_out : list aug_row :=
  [mkRow (3405 # 100) (-11825 # 100) 10 2 1800 2 1
     (final_price 2 (structure_component 1800 2 1 10))].

End TrainGlobal.

(** ** [src/app.py]: one run of the Streamlit script *)
Module App.

(** [CURRENCIES] and [SYMBOLS], in insertion order. *)
Definition CURRENCIES : list (string * Q) :=
  [("USD", 1); ("INR", 83); ("CNY", 72 # 10); ("EUR", 92 # 100); ("JPY", 150);
   ("GBP", 79 # 100); ("BRL", 495 # 100); ("RUB", 91); ("TRY", 30);
   ("KRW", 1330); ("SAR", 375 # 100)]%string.

Definition SYMBOLS : list (string * string) :=
  [("USD", "$"); ("INR", "₹"); ("CNY", "¥"); ("EUR", "€"); ("JPY", "¥");
   ("GBP", "£"); ("BRL", "R$"); ("RUB", "₽"); ("TRY", "₺"); ("KRW", "₩");
   ("SAR", "﷼")]%string.

(** [dict.get(key, default)]. *)
Fixpoint dict_get {V : Type} (d : list (string * V)) (key : string) (default : V) : V :=
  match d with
  | [] => default
  | (k, v) :: d' => if String.eqb k key then v else dict_get d' key default
  end.

Definition dict_keys {V : Type} (d : list (string * V)) : list string := map fst d.

(** [st.radio(label, options)]: the option the user picked; the widget
    starts on [options[0]]. *)
Definition st_radio (options : list string) (pick : nat) : string :=
  match nth_error options pick with
  | Some o => o
  | None => nth 0 options ""%string
  end.

(** [list(CURRENCIES.keys())[:5]]. *)
Definition currency_options : list string := firstn 5 (dict_keys CURRENCIES).

(** Messages: [get_txt(lang_code, key)] or a literal string. *)
Inductive message :=
| Txt (lang_code key : string)
| Raw (s : string).

(** What a run of the script shows or does, in order. *)
Inductive event :=
| ShowError (m : message)
| Stop
| PredictCall (input_df : list (string * Q))
| Balloons
| ShowResult (symbol : string) (amount : Q).

(** The widget values of one run. *)
Record request := mkRequest {
  lang_code : string;
  currency_pick : nat;
  last_clicked : option (Q * Q);
  total_area : Z;
  bedrooms : Z;
  garage_cars : Z;
  house_age : Z;
  submitted : bool
}.

(** Lines 132-139: [input_df], one row, in this column order. *)
Definition input_df (lat lon : Q) (total_area garage_cars bedrooms house_age : Z)
  : list (string * Q) :=
  [("Latitude", lat); ("Longitude", lon); ("TotalArea", inject_Z total_area);
   ("GarageCars", inject_Z garage_cars); ("Bedrooms", inject_Z bedrooms);
   ("HouseAge", inject_Z house_age)]%string.

(** Lines 143-147: [pred_raw * 100000], then [* rate]. *)
Definition convert (rate pred_raw : Q) : Q :=
  let pred_usd := pred_raw * 100000 in
  pred_usd * rate.

Section Script.

(** The fitted pipeline and its [predict], which returns the first
    prediction or raises (the message). *)
Variable Model : Type.
Variable predict : Model -> list (string * Q) -> string + Q.

(** One run of the script.  [loaded] is the outcome of [load_model()]:
    [inl e] when [joblib.load] raised [e].  Widgets, map and geocoding
    output other than the listed events are not modelled. *)
Definition app_run (loaded : string + Model) (req : request) : list event :=
  match loaded with
  | inl e => [ShowError (Raw ("Error loading global model: " ++ e)); Stop]
  | inr model =>
      let sel_curr := st_radio currency_options (currency_pick req) in
      let rate := dict_get CURRENCIES sel_curr 1 in
      let symbol := dict_get SYMBOLS sel_curr "$"%string in
      let '(lat, lon) :=
        match last_clicked req with
        | Some (la, lo) => (Some la, Some lo)
        | None => (None, None)
        end in
      if submitted req then
        match lat, lon with
        | Some la, Some lo =>
            let df := input_df la lo (total_area req) (garage_cars req)
                        (bedrooms req) (house_age req) in
            PredictCall df ::
            match predict model df with
            | inl err => [ShowError (Raw err)]
            | inr pred_raw => [Balloons; ShowResult symbol (convert rate pred_raw)]
            end
        | _, _ => [ShowError (Txt (lang_code req) "select_loc_warn")]
        end
      else []
  end.

End Script.



(** Lines 114-122: the values the form widgets can return:
    [number_input(min_value=300, max_value=10000)],
    [number_input(min_value=1, max_value=10)],
    [selectbox([0, 1, 2, 3, 4])] and [slider(0, 100)]. *)
Definition garage_options : list Z := [0; 1; 2; 3; 4]%Z.

Definition form_values_ok (req : request) : bool :=
  (300 <=? total_area req)%Z && (total_area req <=? 10000)%Z
  && (1 <=? bedrooms req)%Z && (bedrooms req <=? 10)%Z
  && existsb (Z.eqb (garage_cars req)) garage_options
  && (0 <=? house_age req)%Z && (house_age req <=? 100)%Z.

(** A fitted model that predicts 3.0 ($300,000) for every input. *)
Definition sample_predict (m : unit) (df : list (string * Q)) : string + Q := inr 3.

(** A submitted form, INR selected, location (34.05, -118.25) clicked,
    1500 sq ft, 2 garage places, 3 bedrooms, 10 years. *)
Definition sample_request : request :=
  mkRequest "en" 1 (Some (3405 # 100, -11825 # 100)) 1500 3 2 10 true.


(** The same form submitted before any click on the map. *)
Definition sample_request_no_click : request :=
  mkRequest "en" 1 None 1500 3 2 10 true.

End App.

(** * Training synthesis: proofs *)
Module TrainProofs.
Import TrainGlobal.

Section Proofs.

Context {MT : Type} (mt19937_seed : Z -> MT) (mt19937_next32 : MT -> Z * MT)
  (polar_factor : Q -> Q).

Local Abbreviation state := (legacy_state MT).

(** Two equations for the same deterministic draw from the same state. *)
Ltac same_draw :=
  repeat match goal with
  | H1 : ?f ?s = (?a, ?b), H2 : ?f ?s = (?c, ?d) |- _ =>
      rewrite H1 in H2; injection H2; clear H2; intros; subst
  end.

Lemma polar_loop_det st x1 x2 st' :
  polar_loop MT mt19937_next32 st x1 x2 st' ->
  forall y1 y2 st'', polar_loop MT mt19937_next32 st y1 y2 st'' ->
  x1 = y1 /\ x2 = y2 /\ st' = st''.
Proof.
  induction 1 as [st u1 st1 u2 st2 D1 D2 R | st u1 st1 u2 st2 x1 x2 st' D1 D2 R _ IH];
    intros y1 y2 st'' H'; inversion H'; subst; same_draw.
  - auto.
  - congruence.
  - congruence.
  - eauto.
Qed.

Lemma gauss_det st g st' :
  legacy_gauss MT mt19937_next32 polar_factor st g st' ->
  forall g' st'', legacy_gauss MT mt19937_next32 polar_factor st g' st'' ->
  g = g' /\ st' = st''.
Proof.
  intros H g' st'' H'; destruct H; inversion H'; subst;
    try solve [auto | congruence].
  match goal with
  | P1 : polar_loop _ _ ?s _ _ _, P2 : polar_loop _ _ ?s _ _ _ |- _ =>
      destruct (polar_loop_det _ _ _ _ P1 _ _ _ P2) as (-> & -> & ->)
  end; auto.
Qed.

Lemma normal_det loc scale st v st' :
  legacy_normal MT mt19937_next32 polar_factor loc scale st v st' ->
  forall v' st'', legacy_normal MT mt19937_next32 polar_factor loc scale st v' st'' ->
  v = v' /\ st' = st''.
Proof.
  intros H v' st'' H'; destruct H as [st g st' G]; inversion H' as [? g' ? G']; subst.
  destruct (gauss_det _ _ _ G _ _ G') as [-> ->]; auto.
Qed.

Lemma masked_det rng mask st v st' :
  bounded_masked_uint32 MT mt19937_next32 rng mask st v st' ->
  forall v' st'', bounded_masked_uint32 MT mt19937_next32 rng mask st v' st'' ->
  v = v' /\ st' = st''.
Proof.
  induction 1 as [st w st' W Acc | st w st' v st'' W Rej _ IH];
    intros v' s2 H'; inversion H'; subst; same_draw; try lia; eauto.
Qed.

Lemma fill_det {A : Type} (draw : state -> A -> state -> Prop) :
  (forall s x s1, draw s x s1 -> forall y s2, draw s y s2 -> x = y /\ s1 = s2) ->
  forall n st xs st', fill MT draw n st xs st' ->
  forall ys st'', fill MT draw n st ys st'' -> xs = ys /\ st' = st''.
Proof.
  intros Hdet n st xs st' H; induction H as [st | n st x st1 xs st2 D F IH];
    intros ys st'' H'; inversion H'; subst; auto.
  match goal with
  | D' : draw st _ _ |- _ => destruct (Hdet _ _ _ D _ _ D') as [-> ->]
  end.
  match goal with
  | F' : fill _ _ _ _ _ _ |- _ => destruct (IH _ _ F') as [-> ->]
  end; auto.
Qed.

Lemma Forall2_nth_error_det (a : list Z) (f : Q -> nat) us :
  forall xs ys,
  Forall2 (fun u x => nth_error a (f u) = Some x) us xs ->
  Forall2 (fun u x => nth_error a (f u) = Some x) us ys -> xs = ys.
Proof.
  induction us as [|u us IH]; intros xs ys H1 H2; inversion H1; inversion H2; subst;
    [reflexivity|].
  f_equal; [congruence | eauto].
Qed.

Lemma choice_det a p n st xs st' :
  legacy_choice MT mt19937_next32 a p n st xs st' ->
  forall ys st'', legacy_choice MT mt19937_next32 a p n st ys st'' ->
  xs = ys /\ st' = st''.
Proof.
  intros H ys st'' H'; destruct H as [us xs st' _ R F]; inversion H' as [us' ? ? _ R' F']; subst.
  rewrite R in R'; injection R'; intros; subst.
  split; [eapply Forall2_nth_error_det; eauto | reflexivity].
Qed.

Lemma randint_det low high n st xs st' :
  legacy_randint MT mt19937_next32 low high n st xs st' ->
  forall ys st'', legacy_randint MT mt19937_next32 low high n st ys st'' ->
  xs = ys /\ st' = st''.
Proof.
  intros H ys st'' H'; destruct H; inversion H'; subst;
    try solve [lia | split; reflexivity].
  match goal with
  | F1 : fill _ _ _ _ _ _, F2 : fill _ _ _ _ _ _ |- _ =>
      destruct (fill_det _ (masked_det _ _) _ _ _ _ F1 _ _ F2) as [-> ->]
  end; auto.
Qed.

Lemma fill_length {A : Type} (draw : state -> A -> state -> Prop) n st xs st' :
  fill MT draw n st xs st' -> List.length xs = n.
Proof. induction 1; simpl; auto. Qed.

Lemma random_sample_length n st :
  List.length (fst (random_sample MT mt19937_next32 n st)) = n.
Proof.
  revert st; induction n as [|n IH]; intros st; simpl; [reflexivity|].
  destruct (legacy_double MT mt19937_next32 st) as [u st1].
  specialize (IH st1); destruct (random_sample MT mt19937_next32 n st1) as [us st2].
  simpl in *; congruence.
Qed.

Lemma choice_length a p n st xs st' :
  legacy_choice MT mt19937_next32 a p n st xs st' -> List.length xs = n.
Proof.
  intros [us xs' st'' _ R F].
  rewrite <- (Forall2_length F).
  pose proof (random_sample_length n st) as L; rewrite R in L; exact L.
Qed.

Lemma randint_length low high n st xs st' :
  legacy_randint MT mt19937_next32 low high n st xs st' -> List.length xs = n.
Proof.
  intros [_ _ | vs st'' _ _ F]; [apply repeat_length|].
  rewrite length_map; eapply fill_length; eauto.
Qed.

Lemma augment_rows base areas garages beds :
  List.length areas = List.length base ->
  List.length garages = List.length base ->
  List.length beds = List.length base ->
  Forall2 (fun b r =>
    row_Latitude r = Latitude b /\ row_Longitude r = Longitude b /\
    row_HouseAge r = HouseAge b /\ row_MedHouseVal r = MedHouseVal b /\
    FinalPrice r = final_price (MedHouseVal b)
      (structure_component (TotalArea r) (GarageCars r) (Bedrooms r) (HouseAge b)))
    base (augment base areas garages beds).
Proof.
  revert areas garages beds; induction base as [|b bs IH];
    intros [|a areas] [|g garages] [|d beds] La Lg Ld; simpl in *; try discriminate;
    constructor; auto 10.
Qed.

Lemma augment_columns base areas garages beds :
  List.length areas = List.length base ->
  List.length garages = List.length base ->
  List.length beds = List.length base ->
  map TotalArea (augment base areas garages beds) = areas /\
  map GarageCars (augment base areas garages beds) = garages /\
  map Bedrooms (augment base areas garages beds) = beds.
Proof.
  revert areas garages beds; induction base as [|b bs IH];
    intros [|a areas] [|g garages] [|d beds] La Lg Ld; simpl in *; try discriminate;
    auto.
  destruct (IH areas garages beds) as (-> & -> & ->); auto.
Qed.

Lemma final_price_floor l s : (1 # 2 <= final_price l s)%Q.
Proof.
  unfold final_price, clip_lower.
  destruct (Qle_bool (1 # 2) (l + s)) eqn:E;
    [apply Qle_bool_iff; exact E | apply Qle_refl].
Qed.

Lemma final_price_max l s : (final_price l s == Qmax (1 # 2) (l + s))%Q.
Proof.
  unfold final_price, clip_lower.
  destruct (Qle_bool (1 # 2) (l + s)) eqn:E.
  - apply Qle_bool_iff in E; symmetry; apply Q.max_r; exact E.
  - assert (N : ~ (1 # 2 <= l + s)%Q) by (rewrite <- Qle_bool_iff; congruence).
    apply Qnot_le_lt in N; symmetry; apply Q.max_l; apply Qlt_le_weak; exact N.
Qed.

(** The lengths of the drawn columns and the frame built from them. *)
Lemma synthesize_shape seed prior base out :
  synthesize MT mt19937_seed mt19937_next32 polar_factor seed prior base out ->
  exists draws garages beds,
    List.length draws = List.length base /\ List.length garages = List.length base /\
    List.length beds = List.length base /\
    out = augment base (map total_area_of draws) garages beds.
Proof.
  intros [s0 d s1 g s2 b s3 _ N C R].
  exists d, g, b; repeat split; eauto using fill_length, choice_length, randint_length.
Qed.

Lemma synthesize_rows seed prior base out :
  synthesize MT mt19937_seed mt19937_next32 polar_factor seed prior base out ->
  Forall2 (fun b r =>
    row_Latitude r = Latitude b /\ row_Longitude r = Longitude b /\
    row_HouseAge r = HouseAge b /\ row_MedHouseVal r = MedHouseVal b /\
    FinalPrice r = final_price (MedHouseVal b)
      (structure_component (TotalArea r) (GarageCars r) (Bedrooms r) (HouseAge b)))
    base out.
Proof.
  intros H; destruct (synthesize_shape _ _ _ _ H) as (d & g & b & Ld & Lg & Lb & ->).
  apply augment_rows; auto; rewrite length_map; auto.
Qed.

(** Building a run step by step, the frame given last. *)
Lemma synthesize_intro seed prior base out st0 draws st1 garages st2 beds st3 :
  legacy_seeding MT mt19937_seed seed prior = Some st0 ->
  fill MT (legacy_normal MT mt19937_next32 polar_factor 1800 600) (List.length base) st0 draws st1 ->
  legacy_choice MT mt19937_next32 garage_values garage_p (List.length base) st1 garages st2 ->
  legacy_randint MT mt19937_next32 1 6 (List.length base) st2 beds st3 ->
  out = augment base (map total_area_of draws) garages beds ->
  synthesize MT mt19937_seed mt19937_next32 polar_factor seed prior base out.
Proof. intros S N C R ->; econstructor; eauto. Qed.

Lemma legacy_seeding_prior seed prior1 prior2 :
  legacy_seeding MT mt19937_seed seed prior1 = legacy_seeding MT mt19937_seed seed prior2.
Proof. reflexivity. Qed.

(** C3: for a fixed seed and base dataset, two runs of the synthesis give
    the same augmented frame (TotalArea, GarageCars, Bedrooms, HouseAge and
    FinalPrice of every row), whatever the global generator held before. *)
Theorem synthesize_deterministic seed prior1 prior2 base out1 out2 :
  synthesize MT mt19937_seed mt19937_next32 polar_factor seed prior1 base out1 ->
  synthesize MT mt19937_seed mt19937_next32 polar_factor seed prior2 base out2 ->
  out1 = out2.
Proof.
  intros H1 H2; destruct H1 as [s0 d s1 g s2 b s3 S0 N C R];
    destruct H2 as [s0' d' s1' g' s2' b' s3' S0' N' C' R'].
  rewrite (legacy_seeding_prior seed prior2 prior1) in S0'.
  rewrite S0 in S0'; injection S0'; intros; subst.
  destruct (fill_det _ (normal_det 1800 600) _ _ _ _ N _ _ N') as [-> ->].
  destruct (choice_det _ _ _ _ _ _ C _ _ C') as [-> ->].
  destruct (randint_det _ _ _ _ _ _ R _ _ R') as [-> ->].
  reflexivity.
Qed.

(** ** Column-level facts used by C2 and C6 *)

Lemma fill_normal_gauss loc scale n st ds st' :
  fill MT (legacy_normal MT mt19937_next32 polar_factor loc scale) n st ds st' ->
  exists gs, fill MT (legacy_gauss MT mt19937_next32 polar_factor) n st gs st' /\
             ds = map (fun g => loc + scale * g)%Q gs.
Proof.
  induction 1 as [st | n st x st1 xs st2 D _ IH]; [exists []; split; constructor|].
  destruct IH as (gs & F & ->); destruct D as [st g st1 G].
  exists (g :: gs); split; [econstructor; eauto | reflexivity].
Qed.

Lemma fill_Forall {A : Type} (draw : state -> A -> state -> Prop) (P : A -> Prop) :
  (forall s x s', draw s x s' -> P x) ->
  forall n st xs st', fill MT draw n st xs st' -> Forall P xs.
Proof. intros HP n st xs st' H; induction H; constructor; eauto. Qed.

Lemma Forall2_of_map {A B C : Type} (f : A -> C) (g : B -> C) l1 :
  forall l2, map f l1 = map g l2 -> Forall2 (fun a b => g b = f a) l1 l2.
Proof.
  induction l1 as [|a l1 IH]; intros [|b l2] E; simpl in E; try discriminate;
    constructor; injection E; auto.
Qed.

Lemma Forall2_Forall_r {A B : Type} (P : A -> B -> Prop) (R : B -> Prop) l1 l2 :
  Forall2 P l1 l2 -> Forall R l2 -> Forall2 (fun a b => P a b /\ R b) l1 l2.
Proof. induction 1; intros HR; inversion HR; constructor; auto. Qed.

Lemma Forall2_Forall_l {A B : Type} (P : A -> B -> Prop) (R : A -> Prop) l1 l2 :
  Forall2 P l1 l2 -> Forall R l1 -> Forall2 (fun a b => R a /\ P a b) l1 l2.
Proof. induction 1; intros HR; inversion HR; constructor; auto. Qed.

Lemma Forall2_map_r {A B C : Type} (P : A -> C -> Prop) (f : B -> C) l1 l2 :
  Forall2 P l1 (map f l2) -> Forall2 (fun a b => P a (f b)) l1 l2.
Proof.
  revert l1; induction l2 as [|b l2 IH]; intros l1 H; inversion H; subst; constructor; auto.
Qed.

(** [.astype(int)] is [Z.quot] of numerator by denominator. *)
Lemma astype_int_quot x : astype_int x = Z.quot (Qnum x) (Zpos (Qden x)).
Proof.
  destruct x as [p q]; unfold astype_int, Qle_bool, Qceiling, Qfloor; simpl.
  destruct (Z.leb_spec 0 (p * 1)) as [Hp | Hp].
  - rewrite Z.quot_div_nonneg; lia.
  - rewrite <- (Z.opp_involutive p) at 2.
    rewrite Z.quot_opp_l by lia.
    rewrite Z.quot_div_nonneg by lia; reflexivity.
Qed.

Lemma clip_int_max_min lo hi x :
  (lo <= hi)%Z -> clip_int lo hi x = Z.max lo (Z.min hi x).
Proof.
  intros H; unfold clip_int.
  destruct (Z.ltb_spec x lo); [lia|]; destruct (Z.ltb_spec hi x); lia.
Qed.

Lemma next_uint32_range st :
  (0 <= fst (next_uint32 MT mt19937_next32 st) < 4294967296)%Z.
Proof.
  unfold next_uint32; destruct (mt19937_next32 (bitgen MT st)) as [w m]; simpl.
  change 4294967295%Z with (Z.ones 32); rewrite Z.land_ones by lia.
  apply Z.mod_pos_bound; lia.
Qed.

(** A double is in [0, 1). *)
Lemma legacy_double_range st :
  (0 <= fst (legacy_double MT mt19937_next32 st) < 1)%Q.
Proof.
  unfold legacy_double.
  pose proof (next_uint32_range st) as R1.
  destruct (next_uint32 MT mt19937_next32 st) as [w1 st1] eqn:E1.
  pose proof (next_uint32_range st1) as R2.
  destruct (next_uint32 MT mt19937_next32 st1) as [w2 st2] eqn:E2; simpl in *.
  rewrite !Z.shiftr_div_pow2 by lia.
  change (2 ^ 5)%Z with 32%Z; change (2 ^ 6)%Z with 64%Z.
  assert (0 <= w1 / 32 < 134217728)%Z by (split; [apply Z.div_pos | apply Z.div_lt_upper_bound]; lia).
  assert (0 <= w2 / 64 < 67108864)%Z by (split; [apply Z.div_pos | apply Z.div_lt_upper_bound]; lia).
  unfold Qle, Qlt; simpl; lia.
Qed.

Lemma random_sample_range n st :
  Forall (fun u => 0 <= u < 1)%Q (fst (random_sample MT mt19937_next32 n st)).
Proof.
  revert st; induction n as [|n IH]; intros st; simpl; [constructor|].
  pose proof (legacy_double_range st) as R.
  destruct (legacy_double MT mt19937_next32 st) as [u st1].
  specialize (IH st1); destruct (random_sample MT mt19937_next32 n st1) as [us st2].
  simpl in *; constructor; auto.
Qed.

Lemma masked_range rng mask st v st' :
  (0 <= mask)%Z ->
  bounded_masked_uint32 MT mt19937_next32 rng mask st v st' -> (0 <= v <= rng)%Z.
Proof.
  intros Hm H; induction H as [st w st' W Acc | ]; auto.
  pose proof (next_uint32_range st) as R; rewrite W in R; simpl in R.
  split; [apply Z.land_nonneg; lia | exact Acc].
Qed.

(** C1: every row's FinalPrice is [max(0.5, MedHouseVal + TotalArea*0.0015
    + GarageCars*0.15 + Bedrooms*0.10 - HouseAge*0.02)], with MedHouseVal and
    HouseAge those of the corresponding base row. *)
Theorem train_final_price_formula prior base out :
  train_global MT mt19937_seed mt19937_next32 polar_factor prior base out ->
  Forall2 (fun b r =>
    row_MedHouseVal r = MedHouseVal b /\ row_HouseAge r = HouseAge b /\
    (FinalPrice r == Qmax (1 # 2)
       (MedHouseVal b + (inject_Z (TotalArea r) * (15 # 10000)
                         + inject_Z (GarageCars r) * (15 # 100)
                         + inject_Z (Bedrooms r) * (10 # 100)
                         - HouseAge b * (2 # 100))))%Q)
    base out.
Proof.
  intros H; apply synthesize_rows in H.
  eapply Forall2_impl; [|exact H].
  intros b r (_ & _ & Ha & Hm & Hf); repeat split; auto.
  rewrite Hf; apply final_price_max.
Qed.

(** C5: every row's FinalPrice is at least 0.5. *)
Theorem train_final_price_floor prior base out :
  train_global MT mt19937_seed mt19937_next32 polar_factor prior base out ->
  Forall (fun r => (1 # 2 <= FinalPrice r)%Q) out.
Proof.
  intros H; apply synthesize_rows in H.
  induction H as [|b r bs rs (_ & _ & _ & _ & Hf) _ IH]; constructor; auto.
  rewrite Hf; apply final_price_floor.
Qed.

(** C2 (as the code does it): each row's TotalArea is a normal draw
    [1800 + 600 * g] (with [g] the standard Gaussians drawn from the
    seeded generator), truncated toward zero by [.astype(int)] and clipped
    to [500, 5000]; every TotalArea lies in [500, 5000]. *)
Theorem train_total_area prior base out :
  train_global MT mt19937_seed mt19937_next32 polar_factor prior base out ->
  exists st0 gs st1,
    legacy_seeding MT mt19937_seed train_seed prior = Some st0 /\
    fill MT (legacy_gauss MT mt19937_next32 polar_factor) (List.length base) st0 gs st1 /\
    Forall2 (fun g r =>
      TotalArea r = Z.max 500 (Z.min 5000
        (Z.quot (Qnum (1800 + 600 * g)%Q) (Zpos (Qden (1800 + 600 * g)%Q))))) gs out /\
    Forall (fun r => 500 <= TotalArea r <= 5000)%Z out.
Proof.
  intros H; destruct H as [s0 d s1 g s2 b s3 S0 N C R].
  pose proof (fill_length _ _ _ _ _ N) as Ld.
  pose proof (choice_length _ _ _ _ _ _ C) as Lg.
  pose proof (randint_length _ _ _ _ _ _ R) as Lb.
  destruct (fill_normal_gauss _ _ _ _ _ _ N) as (gs & G & ->).
  rewrite length_map in Ld.
  destruct (augment_columns base (map total_area_of (map (fun g0 => 1800 + 600 * g0)%Q gs)) g b)
    as (Ea & _ & _); try rewrite !length_map; auto.
  rewrite map_map in Ea |- *.
  exists s0, gs, s1; repeat split; auto.
  - eapply Forall2_impl; [|exact (Forall2_of_map _ _ _ _ (eq_sym Ea))].
    intros x r ->; unfold total_area_of.
    rewrite clip_int_max_min by lia; rewrite astype_int_quot; reflexivity.
  - apply (proj1 (Forall_map TotalArea (fun z => 500 <= z <= 5000)%Z _)).
    rewrite Ea; apply (proj2 (Forall_map _ _ _)), Forall_forall.
    intros x _; unfold total_area_of; rewrite clip_int_max_min by lia; lia.
Qed.

(** Category [i] of [choice] with [p = garage_p] is picked exactly when the
    uniform draw lies in [[p_0 + ... + p_(i-1), p_0 + ... + p_i)], an
    interval of width [p_i]. *)
Lemma garage_choice_intervals u i :
  (0 <= u < 1)%Q -> (i < 4)%nat ->
  searchsorted_right (normalize_cdf (cumsum garage_p)) u = i <->
  (Qsum (firstn i garage_p) <= u < Qsum (firstn (S i) garage_p))%Q.
Proof.
  intros [U0 U1] Hi.
  replace (normalize_cdf (cumsum garage_p))
    with [10000 # 100000; 400000 # 1000000; 9000000 # 10000000; 100000000 # 100000000]%Q
    by reflexivity.
  cbn [searchsorted_right].
  repeat match goal with
  | |- context [Qle_bool ?c u] =>
      let E := fresh "E" in
      destruct (Qle_bool c u) eqn:E;
      [apply Qle_bool_iff in E
      |assert (u < c)%Q by (apply Qnot_le_lt; rewrite <- Qle_bool_iff; congruence)]
  end.
  all: destruct i as [|[|[|[|i]]]]; try (exfalso; lia);
    unfold Qsum, garage_p; cbn [firstn fold_right]; split; intros Hc;
    first [reflexivity | discriminate | exfalso; lra | split; lra].
Qed.

(** C6: in every row GarageCars is one of 0, 1, 2, 3, Bedrooms is in
    [1, 5] and HouseAge is the base row's.  GarageCars is [garage_values]
    at the index the row's uniform double [u] selects, and index [i] is
    selected exactly on an interval of width [p_i]; Bedrooms is [1 + v] for
    the accepted masked 32-bit value [v], and of the eight equally likely
    values of the masked bits, the five accepted give 1, 2, 3, 4, 5 once
    each. *)
Theorem train_structural_draws prior base out :
  train_global MT mt19937_seed mt19937_next32 polar_factor prior base out ->
  Forall2 (fun b r =>
    In (GarageCars r) [0; 1; 2; 3]%Z /\ (1 <= Bedrooms r <= 5)%Z /\
    row_HouseAge r = HouseAge b) base out /\
  (exists st us st',
    random_sample MT mt19937_next32 (List.length base) st = (us, st') /\
    Forall2 (fun u r => (0 <= u < 1)%Q /\
      nth_error garage_values (searchsorted_right (normalize_cdf (cumsum garage_p)) u)
      = Some (GarageCars r)) us out) /\
  (forall u i, (0 <= u < 1)%Q -> (i < 4)%nat ->
    searchsorted_right (normalize_cdf (cumsum garage_p)) u = i <->
    (Qsum (firstn i garage_p) <= u < Qsum (firstn (S i) garage_p))%Q) /\
  (exists st vs st',
    fill MT (bounded_masked_uint32 MT mt19937_next32 4 7) (List.length base) st vs st' /\
    map Bedrooms out = map (Z.add 1) vs) /\
  map (Z.add 1) (filter (fun v => Z.leb v 4)
    (map (fun w => Z.land w (gen_mask 4)) (map Z.of_nat (seq 0 8)))) = [1; 2; 3; 4; 5]%Z.
Proof.
  intros H; pose proof (synthesize_rows _ _ _ _ H) as Rows.
  destruct H as [s0 d s1 g s2 b s3 S0 N C R].
  pose proof (fill_length _ _ _ _ _ N) as Ld.
  pose proof (choice_length _ _ _ _ _ _ C) as Lg.
  pose proof (randint_length _ _ _ _ _ _ R) as Lb.
  destruct (augment_columns base (map total_area_of d) g b) as (_ & Eg & Eb);
    try rewrite length_map; auto.
  destruct R as [Hlt Hz | vs s3' Hlt Hr F]; [lia|].
  destruct C as [us xs s2' Hok Rs F2].
  set (out := augment base (map total_area_of d) xs (map (Z.add 1) vs)) in *.
  assert (Gin : Forall (fun r => In (GarageCars r) [0; 1; 2; 3]%Z) out).
  { apply (proj1 (Forall_map GarageCars (fun x => In x [0; 1; 2; 3]%Z) _)); rewrite Eg.
    clear -F2; induction F2 as [|u x us xs E _ IH]; constructor; auto.
    eapply nth_error_In; exact E. }
  assert (Vr : Forall (fun v => 0 <= v <= 4)%Z vs).
  { eapply fill_Forall; [|exact F].
    intros s x s' M; apply (masked_range _ (gen_mask (6 - 1 - 1)) _ _ _ ltac:(apply Z.leb_le; reflexivity) M). }
  assert (Bin : Forall (fun r => 1 <= Bedrooms r <= 5)%Z out).
  { apply (proj1 (Forall_map Bedrooms (fun x => 1 <= x <= 5)%Z _)); rewrite Eb.
    apply (proj2 (Forall_map _ _ _)); refine (Forall_impl _ _ Vr).
    intros v Hv; lia. }
  split; [|split; [|split; [|split]]].
  - pose proof (Forall2_Forall_r _ _ _ _ (Forall2_Forall_r _ _ _ _ Rows Gin) Bin) as All.
    eapply Forall2_impl; [|exact All].
    intros b0 r ((( _ & _ & Ha & _) & Hg) & Hb); auto.
  - exists s1, us, s2'; split; [exact Rs|].
    rewrite <- Eg in F2; apply Forall2_map_r in F2.
    pose proof (random_sample_range (List.length base) s1) as U; rewrite Rs in U.
    exact (Forall2_Forall_l _ _ _ _ F2 U).
  - exact garage_choice_intervals.
  - exists s2', vs, s3'; split; [exact F | exact Eb].
  - reflexivity.
Qed.

End Proofs.

(** The sample generator runs the synthesis on [sample_base], from any
    prior generator state and with any polar factor. *)
Lemma sample_run_pf pf prior :
  train_global Z sample_seed sample_next32 pf prior sample_base (sample_out_pf pf).
Proof.
  eapply synthesize_intro.
  - reflexivity.
  - econstructor; [|constructor].
    econstructor. eapply gauss_polar; [reflexivity|].
    eapply polar_accept; [reflexivity | reflexivity | vm_compute; reflexivity].
  - econstructor; [reflexivity | reflexivity | repeat constructor].
  - eapply randint_masked; [lia | lia | ].
    econstructor; [|constructor].
    eapply masked_accept; [reflexivity | apply Z.leb_le; reflexivity].
  - reflexivity.
Qed.

Lemma sample_run prior :
  train_global Z sample_seed sample_next32 sample_polar_factor prior sample_base sample_out.
Proof.
  replace sample_out with (sample_out_pf sample_polar_factor) by (vm_compute; reflexivity).
  apply sample_run_pf.
Qed.

Lemma sample_gauss_pf pf :
  exists st1, fill Z (legacy_gauss Z sample_next32 pf) 1
    (mkLegacy Z (sample_seed train_seed) false 0)
    [pf (sample_unit * sample_unit + sample_unit * sample_unit) * sample_unit] st1.
Proof.
  eexists; econstructor; [|constructor].
  eapply gauss_polar; [reflexivity|].
  eapply polar_accept; [reflexivity | reflexivity | vm_compute; reflexivity].
Qed.

(** C3 witness: two runs from different prior states. *)
Lemma synthesize_deterministic_witness :
  train_global Z sample_seed sample_next32 sample_polar_factor sample_prior sample_base sample_out /\
  train_global Z sample_seed sample_next32 sample_polar_factor
    (mkLegacy Z 0%Z false 0) sample_base sample_out /\
  sample_out = sample_out.
Proof.
  split; [apply sample_run | split; [apply sample_run|]].
  exact (synthesize_deterministic sample_seed sample_next32 sample_polar_factor
           train_seed sample_prior (mkLegacy Z 0%Z false 0) sample_base sample_out sample_out
           (sample_run _) (sample_run _)).
Defined.

(** C1 witness. *)
Lemma train_final_price_formula_witness :
  train_global Z sample_seed sample_next32 sample_polar_factor sample_prior sample_base sample_out /\
  Forall2 (fun b r =>
    row_MedHouseVal r = MedHouseVal b /\ row_HouseAge r = HouseAge b /\
    (FinalPrice r == Qmax (1 # 2)
       (MedHouseVal b + (inject_Z (TotalArea r) * (15 # 10000)
                         + inject_Z (GarageCars r) * (15 # 100)
                         + inject_Z (Bedrooms r) * (10 # 100)
                         - HouseAge b * (2 # 100))))%Q)
    sample_base sample_out.
Proof.
  split; [apply sample_run|].
  exact (train_final_price_formula sample_seed sample_next32 sample_polar_factor
           sample_prior sample_base sample_out (sample_run _)).
Defined.

(** C5 witness. *)
Lemma train_final_price_floor_witness :
  train_global Z sample_seed sample_next32 sample_polar_factor sample_prior sample_base sample_out /\
  Forall (fun r => (1 # 2 <= FinalPrice r)%Q) sample_out.
Proof.
  split; [apply sample_run|].
  exact (train_final_price_floor sample_seed sample_next32 sample_polar_factor
           sample_prior sample_base sample_out (sample_run _)).
Defined.

(** C2 witness. *)
Lemma train_total_area_witness :
  train_global Z sample_seed sample_next32 sample_polar_factor sample_prior sample_base sample_out /\
  exists st0 gs st1,
    legacy_seeding Z sample_seed train_seed sample_prior = Some st0 /\
    fill Z (legacy_gauss Z sample_next32 sample_polar_factor) (List.length sample_base) st0 gs st1 /\
    Forall2 (fun g r =>
      TotalArea r = Z.max 500 (Z.min 5000
        (Z.quot (Qnum (1800 + 600 * g)%Q) (Zpos (Qden (1800 + 600 * g)%Q))))) gs sample_out /\
    Forall (fun r => 500 <= TotalArea r <= 5000)%Z sample_out.
Proof.
  split; [apply sample_run|].
  exact (train_total_area sample_seed sample_next32 sample_polar_factor
           sample_prior sample_base sample_out (sample_run _)).
Defined.

(** C6 witness. *)
Lemma train_structural_draws_witness :
  train_global Z sample_seed sample_next32 sample_polar_factor sample_prior sample_base sample_out /\
  (Forall2 (fun b r =>
    In (GarageCars r) [0; 1; 2; 3]%Z /\ (1 <= Bedrooms r <= 5)%Z /\
    row_HouseAge r = HouseAge b) sample_base sample_out /\
  (exists st us st',
    random_sample Z sample_next32 (List.length sample_base) st = (us, st') /\
    Forall2 (fun u r => (0 <= u < 1)%Q /\
      nth_error garage_values (searchsorted_right (normalize_cdf (cumsum garage_p)) u)
      = Some (GarageCars r)) us sample_out) /\
  (forall u i, (0 <= u < 1)%Q -> (i < 4)%nat ->
    searchsorted_right (normalize_cdf (cumsum garage_p)) u = i <->
    (Qsum (firstn i garage_p) <= u < Qsum (firstn (S i) garage_p))%Q) /\
  (exists st vs st',
    fill Z (bounded_masked_uint32 Z sample_next32 4 7) (List.length sample_base) st vs st' /\
    map Bedrooms sample_out = map (Z.add 1) vs) /\
  map (Z.add 1) (filter (fun v => Z.leb v 4)
    (map (fun w => Z.land w (gen_mask 4)) (map Z.of_nat (seq 0 8)))) = [1; 2; 3; 4; 5]%Z).
Proof.
  split; [apply sample_run|].
  exact (train_structural_draws sample_seed sample_next32 sample_polar_factor
           sample_prior sample_base sample_out (sample_run _)).
Defined.

(** C2 as stated (rounding to the nearest integer) fails: with a draw of
    1800.7 the row's TotalArea is 1800 (truncation), not 1801. *)
Lemma train_total_area_rounding_counterexample :
  ~ (forall prior out,
       train_global Z sample_seed sample_next32 frac_polar_factor prior sample_base out ->
       exists st0 gs st1,
         legacy_seeding Z sample_seed train_seed prior = Some st0 /\
         fill Z (legacy_gauss Z sample_next32 frac_polar_factor) (List.length sample_base) st0 gs st1 /\
         Forall2 (fun g r =>
           TotalArea r = Z.max 500 (Z.min 5000 (Qfloor (1800 + 600 * g + (1 # 2))%Q))) gs out).
Proof.
  intros Hall.
  destruct (Hall sample_prior _ (sample_run_pf frac_polar_factor sample_prior))
    as (st0 & gs & st1 & S0 & F & F2).
  vm_compute in S0; injection S0; intros <-.
  destruct (sample_gauss_pf frac_polar_factor) as [st1' F'].
  destruct (fill_det _ (gauss_det sample_next32 frac_polar_factor) _ _ _ _ F _ _ F') as [-> _].
  inversion F2 as [|g r gs' rs' E _]; subst.
  vm_compute in E; discriminate.
Qed.

End TrainProofs.

(** * Serving script: proofs *)
Module AppProofs.
Import App.

Section Proofs.

Context {Model : Type} (predict : Model -> list (string * Q) -> string + Q).

Lemma app_run_predict_call loaded req df :
  In (PredictCall df) (app_run Model predict loaded req) ->
  exists model lat lon,
    loaded = inr model /\ submitted req = true /\ last_clicked req = Some (lat, lon) /\
    df = input_df lat lon (total_area req) (garage_cars req) (bedrooms req) (house_age req).
Proof.
  unfold app_run; destruct loaded as [e | model]; simpl.
  - intros [H | [H | []]]; discriminate.
  - destruct (last_clicked req) as [[la lo] |]; destruct (submitted req); simpl; try tauto.
    + intros [H | H].
      * injection H; intros <-; eauto 8.
      * destruct (predict model _) as [err | p]; simpl in H;
          repeat (destruct H as [H | H]; [discriminate|]); destruct H.
    + intros [H | []]; discriminate.
Qed.

(** C4: the model's inputs are the 6 columns (Latitude, Longitude, TotalArea,
    GarageCars, Bedrooms, HouseAge), in this order, at training time
    ([X = df[feature_cols]]) and in every [input_df] passed to [predict];
    the serving row carries the clicked coordinates and the form values
    field for field. *)
Theorem feature_order_train_serve loaded req df :
  In (PredictCall df) (app_run Model predict loaded req) ->
  TrainGlobal.feature_cols =
    ["Latitude"; "Longitude"; "TotalArea"; "GarageCars"; "Bedrooms"; "HouseAge"]%string /\
  map fst df = TrainGlobal.feature_cols /\
  (exists lat lon, last_clicked req = Some (lat, lon) /\
     map snd df = [lat; lon; inject_Z (total_area req); inject_Z (garage_cars req);
                   inject_Z (bedrooms req); inject_Z (house_age req)]) /\
  (forall r, TrainGlobal.X_row r =
     Some (combine TrainGlobal.feature_cols
       [TrainGlobal.row_Latitude r; TrainGlobal.row_Longitude r;
        inject_Z (TrainGlobal.TotalArea r); inject_Z (TrainGlobal.GarageCars r);
        inject_Z (TrainGlobal.Bedrooms r); TrainGlobal.row_HouseAge r])).
Proof.
  intros H; destruct (app_run_predict_call _ _ _ H) as (model & lat & lon & _ & _ & Hc & ->).
  split; [reflexivity|]; split; [reflexivity|]; split; [exists lat, lon; auto|].
  intros r; reflexivity.
Qed.

(** C7: with a prediction [p], the displayed amount is [p * 100000 * r]
    for the rate [r] of the selected currency, and with INR (rate 83) and
    [p = 3] it is 24,900,000. *)
Theorem displayed_amount model req lat lon pred_raw :
  submitted req = true ->
  last_clicked req = Some (lat, lon) ->
  predict model (input_df lat lon (total_area req) (garage_cars req) (bedrooms req)
                   (house_age req)) = inr pred_raw ->
  let sel := st_radio currency_options (currency_pick req) in
  app_run Model predict (inr model) req =
    [PredictCall (input_df lat lon (total_area req) (garage_cars req) (bedrooms req)
                   (house_age req));
     Balloons;
     ShowResult (dict_get SYMBOLS sel "$"%string)
       (pred_raw * 100000 * dict_get CURRENCIES sel 1)%Q] /\
  (sel = "INR"%string -> pred_raw = 3%Q ->
     (pred_raw * 100000 * dict_get CURRENCIES sel 1 == 24900000)%Q).
Proof.
  intros Hs Hc Hp sel; unfold app_run; rewrite Hc, Hs; simpl; rewrite Hp.
  split; [reflexivity|].
  intros Hsel ->; fold sel; rewrite Hsel; reflexivity.
Qed.

(** C8: when [load_model()] raises, the run shows the error and stops;
    [predict] is never called, and it is called only with a loaded model. *)
Theorem load_failure_stops e req :
  app_run Model predict (inl e) req =
    [ShowError (Raw ("Error loading global model: " ++ e)); Stop] /\
  (forall df, ~ In (PredictCall df) (app_run Model predict (inl e) req)) /\
  (forall loaded req' df, In (PredictCall df) (app_run Model predict loaded req') ->
     exists model, loaded = inr model).
Proof.
  split; [reflexivity|]; split.
  - intros df [H | [H | []]]; discriminate.
  - intros loaded req' df H; destruct (app_run_predict_call _ _ _ H) as (m & _ & _ & -> & _); eauto.
Qed.

(** C9: the table has 11 currencies, the radio offers the first five
    (USD, INR, CNY, EUR, JPY) and always returns one of them, every shown
    result is in one of them, and a currency absent from the tables gets
    rate 1.0 and symbol "$". *)
Theorem currency_selection :
  List.length CURRENCIES = 11%nat /\ List.length SYMBOLS = 11%nat /\
  currency_options = ["USD"; "INR"; "CNY"; "EUR"; "JPY"]%string /\
  (forall pick, In (st_radio currency_options pick) currency_options) /\
  (forall model req sym amt,
     In (ShowResult sym amt) (app_run Model predict (inr model) req) ->
     exists c p, In c currency_options /\ sym = dict_get SYMBOLS c "$"%string /\
                 amt = convert (dict_get CURRENCIES c 1) p) /\
  (forall c, ~ In c (dict_keys CURRENCIES) -> dict_get CURRENCIES c 1 = 1%Q) /\
  (forall c, ~ In c (dict_keys SYMBOLS) -> dict_get SYMBOLS c "$"%string = "$"%string).
Proof.
  assert (Pick : forall pick, In (st_radio currency_options pick) currency_options).
  { intros pick; unfold st_radio.
    destruct (nth_error currency_options pick) eqn:E;
      [eapply nth_error_In; eauto | simpl; auto]. }
  split; [reflexivity|]; split; [reflexivity|]; split; [reflexivity|]; split; [exact Pick|].
  split; [|split].
  - intros model req sym amt H; unfold app_run in H.
    destruct (last_clicked req) as [[la lo] |]; destruct (submitted req); simpl in H;
      try solve [destruct H as [H | []]; discriminate | destruct H].
    destruct H as [H | H]; [discriminate|].
    destruct (predict model _) as [err | p]; simpl in H;
      [destruct H as [H | []]; discriminate|].
    destruct H as [H | [H | []]]; [discriminate|].
    injection H; intros <- <-.
    exists (st_radio currency_options (currency_pick req)), p; split; [apply Pick | auto].
  - intros c Hc; unfold CURRENCIES in *; cbn [dict_get].
    repeat match goal with
    | |- context [String.eqb ?k c] =>
        destruct (String.eqb_spec k c) as [<- | _];
          [exfalso; apply Hc; unfold dict_keys; cbn [map fst In]; auto 12|]
    end; reflexivity.
  - intros c Hc; unfold SYMBOLS in *; cbn [dict_get].
    repeat match goal with
    | |- context [String.eqb ?k c] =>
        destruct (String.eqb_spec k c) as [<- | _];
          [exfalso; apply Hc; unfold dict_keys; cbn [map fst In]; auto 12|]
    end; reflexivity.
Qed.

(** C10: a submitted form with no clicked location shows the warning and
    does not call [predict]; [predict] is called only when both
    coordinates are present. *)
Theorem no_location_no_predict model req :
  submitted req = true ->
  last_clicked req = None ->
  app_run Model predict (inr model) req = [ShowError (Txt (lang_code req) "select_loc_warn")] /\
  (forall df, ~ In (PredictCall df) (app_run Model predict (inr model) req)) /\
  (forall loaded req' df, In (PredictCall df) (app_run Model predict loaded req') ->
     exists lat lon, last_clicked req' = Some (lat, lon)).
Proof.
  intros Hs Hc.
  assert (E : app_run Model predict (inr model) req =
              [ShowError (Txt (lang_code req) "select_loc_warn")])
    by (unfold app_run; rewrite Hc, Hs; reflexivity).
  split; [exact E|]; split.
  - intros df; rewrite E; intros [H | []]; discriminate.
  - intros loaded req' df H; destruct (app_run_predict_call _ _ _ H) as (m & la & lo & _ & _ & ? & _); eauto.
Qed.

End Proofs.

Definition sample_df : list (string * Q) := input_df (3405 # 100) (-11825 # 100) 1500 2 3 10.

(** C4 witness. *)
Lemma feature_order_train_serve_witness :
  In (PredictCall sample_df) (app_run unit sample_predict (inr tt) sample_request) /\
  (TrainGlobal.feature_cols =
    ["Latitude"; "Longitude"; "TotalArea"; "GarageCars"; "Bedrooms"; "HouseAge"]%string /\
  map fst sample_df = TrainGlobal.feature_cols /\
  (exists lat lon, last_clicked sample_request = Some (lat, lon) /\
     map snd sample_df = [lat; lon; inject_Z (total_area sample_request);
                   inject_Z (garage_cars sample_request);
                   inject_Z (bedrooms sample_request); inject_Z (house_age sample_request)]) /\
  (forall r, TrainGlobal.X_row r =
     Some (combine TrainGlobal.feature_cols
       [TrainGlobal.row_Latitude r; TrainGlobal.row_Longitude r;
        inject_Z (TrainGlobal.TotalArea r); inject_Z (TrainGlobal.GarageCars r);
        inject_Z (TrainGlobal.Bedrooms r); TrainGlobal.row_HouseAge r]))).
Proof.
  assert (H : In (PredictCall sample_df) (app_run unit sample_predict (inr tt) sample_request))
    by (simpl; left; reflexivity).
  split; [exact H|].
  exact (feature_order_train_serve sample_predict _ _ _ H).
Defined.

(** C7 witness: 3.0 predicted, INR selected. *)
Lemma displayed_amount_witness :
  submitted sample_request = true /\
  last_clicked sample_request = Some (3405 # 100, -11825 # 100) /\
  sample_predict tt sample_df = inr 3%Q /\
  (let sel := st_radio currency_options (currency_pick sample_request) in
   app_run unit sample_predict (inr tt) sample_request =
     [PredictCall sample_df; Balloons;
      ShowResult (dict_get SYMBOLS sel "$"%string) (3 * 100000 * dict_get CURRENCIES sel 1)%Q] /\
   (sel = "INR"%string -> 3%Q = 3%Q ->
      (3 * 100000 * dict_get CURRENCIES sel 1 == 24900000)%Q)).
Proof.
  split; [reflexivity|]; split; [reflexivity|]; split; [reflexivity|].
  exact (displayed_amount sample_predict tt sample_request (3405 # 100) (-11825 # 100) 3
           eq_refl eq_refl eq_refl).
Defined.

(** C10 witness. *)
Lemma no_location_no_predict_witness :
  submitted sample_request_no_click = true /\
  last_clicked sample_request_no_click = None /\
  (app_run unit sample_predict (inr tt) sample_request_no_click =
     [ShowError (Txt (lang_code sample_request_no_click) "select_loc_warn")] /\
   (forall df, ~ In (PredictCall df) (app_run unit sample_predict (inr tt) sample_request_no_click)) /\
   (forall loaded req' df, In (PredictCall df) (app_run unit sample_predict loaded req') ->
      exists lat lon, last_clicked req' = Some (lat, lon))).
Proof.
  split; [reflexivity|]; split; [reflexivity|].
  exact (no_location_no_predict sample_predict tt sample_request_no_click eq_refl eq_refl).
Defined.

End AppProofs.

(** ** Further properties of the training script and of the numpy and
    pandas calls it makes *)

Module TrainExtra.
Import TrainGlobal.

Section Extra.

Context {MT : Type} (mt19937_seed : Z -> MT) (mt19937_next32 : MT -> Z * MT)
  (polar_factor : Q -> Q).

Lemma gen_mask_nonneg m : (0 <= m)%Z -> (0 <= gen_mask m)%Z.
Proof.
  intros H.
  assert (L : forall a k, (0 <= a)%Z -> (0 <= Z.lor a (Z.shiftr a k))%Z)
    by (intros a k Ha; apply Z.lor_nonneg; rewrite Z.shiftr_nonneg; auto).
  unfold gen_mask; cbv zeta; repeat apply L; exact H.
Qed.

Lemma randint_bounds low high n st vs st' :
  legacy_randint MT mt19937_next32 low high n st vs st' ->
  List.length vs = n /\ Forall (fun v => low <= v < high)%Z vs.
Proof.
  intros [Hl Hr | vs0 st'' Hl Hr F].
  - split; [apply repeat_length|].
    apply Forall_forall; intros x Hx; apply repeat_spec in Hx; lia.
  - split; [rewrite length_map; eapply TrainProofs.fill_length; eauto|].
    apply Forall_map.
    assert (B : Forall (fun v => (0 <= v <= high - 1 - low)%Z) vs0).
    { eapply (TrainProofs.fill_Forall _ (fun v => (0 <= v <= high - 1 - low)%Z)); [|exact F].
      intros s x s' D; eapply TrainProofs.masked_range; [|exact D].
      apply gen_mask_nonneg; lia. }
    refine (Forall_impl _ _ B); intros v Hv; lia.
Qed.


Lemma astype_int_monotone x y : (x <= y)%Q -> (astype_int x <= astype_int y)%Z.
Proof.
  intros H; unfold astype_int.
  destruct (Qle_bool 0 x) eqn:Ex, (Qle_bool 0 y) eqn:Ey.
  - apply Qfloor_resp_le; exact H.
  - apply Qle_bool_iff in Ex.
    assert (Y : Qle_bool 0 y = true) by (apply Qle_bool_iff; eapply Qle_trans; eauto).
    congruence.
  - assert (Nx : (x <= 0)%Q).
    { apply Qlt_le_weak, Qnot_le_lt; rewrite <- Qle_bool_iff; congruence. }
    apply Qle_bool_iff in Ey.
    pose proof (Qceiling_resp_le x 0 Nx) as C; change (Qceiling 0) with 0%Z in C.
    pose proof (Qfloor_resp_le 0 y Ey) as F; change (Qfloor 0) with 0%Z in F; lia.
  - apply Qceiling_resp_le; exact H.
Qed.

Lemma Forall2_map_eq {A B C : Type} (f : A -> C) (g : B -> C) (l1 : list A) (l2 : list B) :
  Forall2 (fun a b => g b = f a) l1 l2 -> map g l2 = map f l1.
Proof. induction 1; simpl; congruence. Qed.

Lemma choice_values a p n st xs st' :
  legacy_choice MT mt19937_next32 a p n st xs st' -> Forall (fun x => In x a) xs.
Proof.
  intros [us xs' st'' _ _ F].
  induction F; constructor; eauto using nth_error_In.
Qed.

(** The three drawn columns of every training row are bounded by the
    largest value each draw can give. *)
Lemma synthesize_column_bounds seed prior base out :
  synthesize MT mt19937_seed mt19937_next32 polar_factor seed prior base out ->
  Forall (fun r => TotalArea r <= 5000 /\ GarageCars r <= 3 /\ Bedrooms r <= 5)%Z out.
Proof.
  intros H; destruct H as [s0 d s1 g s2 b s3 S0 N C R].
  pose proof (TrainProofs.fill_length _ _ _ _ _ N) as Ld.
  pose proof (TrainProofs.choice_length _ _ _ _ _ _ _ C) as Lg.
  destruct (randint_bounds _ _ _ _ _ _ R) as [Lb Bb].
  destruct (TrainProofs.augment_columns base (map total_area_of d) g b)
    as (EA & EG & EB); [rewrite length_map; auto | auto | auto|].
  set (out := augment base (map total_area_of d) g b) in *.
  assert (FA : Forall (fun r => TotalArea r <= 5000)%Z out).
  { apply (proj1 (Forall_map TotalArea (fun v => (v <= 5000)%Z) out)); rewrite EA.
    apply Forall_map, Forall_forall; intros x _.
    unfold total_area_of; rewrite TrainProofs.clip_int_max_min by lia; lia. }
  assert (FG : Forall (fun r => GarageCars r <= 3)%Z out).
  { apply (proj1 (Forall_map GarageCars (fun v => (v <= 3)%Z) out)); rewrite EG.
    refine (Forall_impl _ _ (choice_values _ _ _ _ _ _ C)).
    intros x Hx; simpl in Hx; lia. }
  assert (FB : Forall (fun r => Bedrooms r <= 5)%Z out).
  { apply (proj1 (Forall_map Bedrooms (fun v => (v <= 5)%Z) out)); rewrite EB; refine (Forall_impl _ _ Bb); intros v Hv; lia. }
  apply Forall_and; [exact FA|]; apply Forall_and; assumption.
Qed.



(** X3: the polar method only accepts a pair strictly inside the unit
    disc and off the origin, with both coordinates in [-1, 1). *)
Theorem polar_pair_in_disc st x1 x2 st' :
  polar_loop MT mt19937_next32 st x1 x2 st' ->
  (0 < x1 * x1 + x2 * x2 < 1)%Q /\ (-1 <= x1 < 1)%Q /\ (-1 <= x2 < 1)%Q.
Proof.
  induction 1 as [st u1 st1 u2 st2 D1 D2 R | ]; [|assumption].
  pose proof (TrainProofs.legacy_double_range mt19937_next32 st) as R1.
  pose proof (TrainProofs.legacy_double_range mt19937_next32 st1) as R2.
  rewrite D1 in R1; rewrite D2 in R2; simpl in R1, R2.
  unfold polar_rejects in R; apply orb_false_iff in R as [R3 R4].
  set (y1 := (2 * u1 - 1)%Q) in *; set (y2 := (2 * u2 - 1)%Q) in *.
  assert (N1 : ~ (1 <= y1 * y1 + y2 * y2)%Q) by (rewrite <- Qle_bool_iff; congruence).
  assert (N0 : ~ (y1 * y1 + y2 * y2 == 0)%Q) by (rewrite <- Qeq_bool_iff; congruence).
  assert (P0 : (0 <= y1 * y1 + y2 * y2)%Q) by nra.
  apply Qnot_le_lt in N1.
  assert (P1 : (0 < y1 * y1 + y2 * y2)%Q).
  { destruct (Qlt_le_dec 0 (y1 * y1 + y2 * y2)) as [L|L]; [exact L|].
    exfalso; apply N0; apply Qle_antisym; assumption. }
  unfold y1, y2; split; [split; assumption|]; split; split; lra.
Qed.


(** X5: [random_sample(n)] returns [n] doubles, each of the form [k / 2^53]
    for an integer [k] in [[0, 2^53)]. *)
Theorem random_sample_dyadic n st :
  List.length (fst (random_sample MT mt19937_next32 n st)) = n /\
  Forall (fun u => exists k, (0 <= k < 9007199254740992)%Z /\ u = k # 9007199254740992)
    (fst (random_sample MT mt19937_next32 n st)).
Proof.
  split; [apply TrainProofs.random_sample_length|].
  revert st; induction n as [|n IH]; intros st; simpl; [constructor|].
  assert (D : exists k, (0 <= k < 9007199254740992)%Z /\
                fst (legacy_double MT mt19937_next32 st) = k # 9007199254740992).
  { unfold legacy_double.
    pose proof (TrainProofs.next_uint32_range mt19937_next32 st) as R1.
    destruct (next_uint32 MT mt19937_next32 st) as [w1 st1].
    pose proof (TrainProofs.next_uint32_range mt19937_next32 st1) as R2.
    destruct (next_uint32 MT mt19937_next32 st1) as [w2 st2]; simpl in *.
    eexists; split; [|reflexivity].
    rewrite !Z.shiftr_div_pow2 by lia.
    change (2 ^ 5)%Z with 32%Z; change (2 ^ 6)%Z with 64%Z.
    assert (0 <= w1 / 32 < 134217728)%Z by (split; [apply Z.div_pos | apply Z.div_lt_upper_bound]; lia).
    assert (0 <= w2 / 64 < 67108864)%Z by (split; [apply Z.div_pos | apply Z.div_lt_upper_bound]; lia).
    lia. }
  destruct (legacy_double MT mt19937_next32 st) as [u st1].
  specialize (IH st1); destruct (random_sample MT mt19937_next32 n st1) as [us st2].
  simpl in *; constructor; auto.
Qed.


(** X7: a larger normal draw never gives a smaller TotalArea. *)
Theorem total_area_monotone d1 d2 :
  (d1 <= d2)%Q -> (total_area_of d1 <= total_area_of d2)%Z.
Proof.
  intros H; unfold total_area_of.
  rewrite !TrainProofs.clip_int_max_min by lia.
  pose proof (astype_int_monotone _ _ H); lia.
Qed.

(** X8: FinalPrice is nondecreasing in MedHouseVal, TotalArea, GarageCars
    and Bedrooms, and nonincreasing in HouseAge. *)
Theorem final_price_monotone l1 l2 a1 a2 g1 g2 d1 d2 age1 age2 :
  (l1 <= l2)%Q -> (a1 <= a2)%Z -> (g1 <= g2)%Z -> (d1 <= d2)%Z -> (age2 <= age1)%Q ->
  (final_price l1 (structure_component a1 g1 d1 age1)
   <= final_price l2 (structure_component a2 g2 d2 age2))%Q.
Proof.
  intros Hl Ha Hg Hd Hage.
  rewrite !TrainProofs.final_price_max.
  apply Q.max_le_compat_l.
  rewrite Zle_Qle in Ha, Hg, Hd.
  unfold structure_component; lra.
Qed.

(** X9: the synthesis keeps the rows of the base dataset in order, with
    their Latitude and Longitude unchanged. *)
Theorem synthesize_keeps_coordinates seed prior base out :
  synthesize MT mt19937_seed mt19937_next32 polar_factor seed prior base out ->
  map row_Latitude out = map Latitude base /\ map row_Longitude out = map Longitude base.
Proof.
  intros H; pose proof (TrainProofs.synthesize_rows _ _ _ _ _ _ _ H) as F.
  split; apply Forall2_map_eq; refine (Forall2_impl _ _ F); intros b r Hr; apply Hr.
Qed.

(** X10: every training row has TotalArea at most 5000, GarageCars at most
    3 and Bedrooms at most 5, while the app's form widgets accept up to
    10000 sq ft, 4 garage places and 10 bedrooms. *)
Theorem form_exceeds_training prior base out :
  train_global MT mt19937_seed mt19937_next32 polar_factor prior base out ->
  Forall (fun r => TotalArea r <= 5000 /\ GarageCars r <= 3 /\ Bedrooms r <= 5)%Z out /\
  (exists req, App.form_values_ok req = true /\ App.total_area req = 10000%Z /\
     App.garage_cars req = 4%Z /\ App.bedrooms req = 10%Z).
Proof.
  intros H; split; [exact (synthesize_column_bounds _ _ _ _ H)|].
  exists (App.mkRequest "en" 0 None 10000 10 4 10 true); repeat split.
Qed.

Lemma searchsorted_right_spec l u i :
  searchsorted_right l u = i -> (i < List.length l)%nat ->
  ~ (nth i l 0 <= u)%Q /\ (forall j, (j < i)%nat -> (nth j l 0 <= u)%Q).
Proof.
  revert i; induction l as [|c cs IH]; intros i E L; simpl in *; [lia|].
  destruct (Qle_bool c u) eqn:C; subst i.
  - destruct (IH _ eq_refl ltac:(lia)) as [N F]; split; [exact N|].
    intros [|j] J; [apply Qle_bool_iff; exact C | apply F; lia].
  - split; [intros H; apply Qle_bool_iff in H; congruence | intros j J; lia].
Qed.

Lemma cumsum_from_length acc p : List.length (cumsum_from acc p) = List.length p.
Proof. revert acc; induction p; intros; simpl; auto. Qed.

Lemma cumsum_from_nth_0 acc p :
  (0 < List.length p)%nat -> nth 0 (cumsum_from acc p) 0 = (acc + nth 0 p 0)%Q.
Proof. destruct p; simpl; [lia | reflexivity]. Qed.

Lemma cumsum_from_nth_S acc p i :
  (S i < List.length p)%nat ->
  nth (S i) (cumsum_from acc p) 0 = (nth i (cumsum_from acc p) 0 + nth (S i) p 0)%Q.
Proof.
  revert acc i; induction p as [|x xs IH]; intros acc i L; simpl in L; [lia|].
  destruct i as [|i].
  - destruct xs as [|y ys]; simpl in L; [lia | reflexivity].
  - simpl; apply IH; lia.
Qed.

(** X11: [choice(a, size=n, p=p)] never returns an entry whose
    probability is 0: every value returned is [a[i]] for an index [i] with
    [p[i] > 0]. *)
Theorem choice_skips_zero_p a p n st xs st' :
  legacy_choice MT mt19937_next32 a p n st xs st' ->
  Forall (fun x => exists i pi, nth_error a i = Some x /\ nth_error p i = Some pi /\ (0 < pi)%Q) xs.
Proof.
  intros [us xs' st'' Ok R F].
  unfold choice_p_ok in Ok; apply andb_prop in Ok as [Ok _]; apply andb_prop in Ok as [Len Nn].
  apply Nat.eqb_eq in Len; rewrite forallb_forall in Nn.
  pose proof (TrainProofs.random_sample_range mt19937_next32 n st) as U; rewrite R in U; simpl in U.
  clear R.
  clear xs; induction F as [|u x us0 xs0 Hx F IH]; constructor; [| apply IH; inversion U; auto].
  inversion U as [|? ? Hu _]; subst.
  remember (searchsorted_right (normalize_cdf (cumsum p)) u) as i eqn:Ei.
  assert (Li : (i < List.length p)%nat) by (rewrite Len; apply nth_error_Some; congruence).
  destruct (nth_error p i) as [pi|] eqn:Pi; [|apply nth_error_None in Pi; lia].
  exists i, pi; split; [exact Hx|]; split; [exact Pi|].
  assert (P0 : (0 <= pi)%Q) by (apply Qle_bool_iff, Nn; eapply nth_error_In; eauto).
  destruct (Qlt_le_dec 0 pi) as [Pos|Neg]; [exact Pos| exfalso].
  assert (Z0 : (pi == 0)%Q) by (apply Qle_antisym; auto).
  apply (nth_error_nth _ _ 0%Q) in Pi.
  set (L := last (cumsum p) 0).
  assert (Nth : forall j, (j < List.length p)%nat ->
            nth j (normalize_cdf (cumsum p)) 0 = (nth j (cumsum p) 0 / L)%Q).
  { intros j Hj; unfold normalize_cdf.
    rewrite (nth_indep _ 0%Q ((fun c => c / L) 0)%Q)
      by (rewrite length_map; unfold cumsum; rewrite cumsum_from_length; exact Hj).
    exact (map_nth (fun c => c / L)%Q (cumsum p) 0%Q j). }
  assert (Lc : List.length (normalize_cdf (cumsum p)) = List.length p)
    by (unfold normalize_cdf, cumsum; rewrite length_map, cumsum_from_length; reflexivity).
  destruct (searchsorted_right_spec _ u i (eq_sym Ei) ltac:(lia)) as [N Before].
  apply N; rewrite (Nth i Li); unfold cumsum.
  destruct i as [|k].
  - rewrite cumsum_from_nth_0 by lia; rewrite Pi, Z0.
    setoid_replace ((0 + 0) / L)%Q with 0%Q by (unfold Qdiv; ring); apply Hu.
  - rewrite cumsum_from_nth_S by lia; rewrite Pi, Z0.
    setoid_replace ((nth k (cumsum_from 0 p) 0 + 0) / L)%Q
      with (nth k (cumsum_from 0 p) 0 / L)%Q by (unfold Qdiv; ring).
    pose proof (Before k ltac:(lia)) as B; rewrite (Nth k ltac:(lia)) in B; exact B.
Qed.

End Extra.

(** The sample generator from state 0 with no cached Gaussian. *)
Definition sample_state0 : legacy_state Z := mkLegacy Z 0%Z false 0.


Lemma sample_polar :
  polar_loop Z sample_next32 sample_state0 sample_unit sample_unit (mkLegacy Z 4%Z false 0).
Proof.
  eapply polar_accept; [reflexivity | reflexivity | vm_compute; reflexivity].
Qed.


(** X3 witness. *)
Lemma polar_pair_in_disc_witness :
  polar_loop Z sample_next32 sample_state0 sample_unit sample_unit (mkLegacy Z 4%Z false 0) /\
  (0 < sample_unit * sample_unit + sample_unit * sample_unit < 1)%Q /\
  (-1 <= sample_unit < 1)%Q /\ (-1 <= sample_unit < 1)%Q.
Proof.
  split; [exact sample_polar|].
  exact (polar_pair_in_disc sample_next32 _ _ _ _ sample_polar).
Defined.



(** X7 witness: draws 1800 and 1800.7. *)
Lemma total_area_monotone_witness :
  (1800 <= 18007 # 10)%Q /\ (total_area_of 1800 <= total_area_of (18007 # 10))%Z.
Proof.
  assert (H : (1800 <= 18007 # 10)%Q) by (apply Qle_bool_iff; reflexivity).
  split; [exact H | exact (total_area_monotone _ _ H)].
Defined.

(** X8 witness: a larger, newer house at the same location. *)
Lemma final_price_monotone_witness :
  (2 <= 2)%Q /\ (1500 <= 1800)%Z /\ (2 <= 2)%Z /\ (1 <= 3)%Z /\ (10 <= 20)%Q /\
  (final_price 2 (structure_component 1500 2 1 20)
   <= final_price 2 (structure_component 1800 2 3 10))%Q.
Proof.
  assert (A : (2 <= 2)%Q) by (apply Qle_refl).
  assert (B : (10 <= 20)%Q) by (apply Qle_bool_iff; reflexivity).
  split; [exact A|]; split; [lia|]; split; [lia|]; split; [lia|]; split; [exact B|].
  exact (final_price_monotone 2 2 1500 1800 2 2 1 3 20 10 A
           ltac:(lia) ltac:(lia) ltac:(lia) B).
Defined.

(** X9 witness. *)
Lemma synthesize_keeps_coordinates_witness :
  synthesize Z sample_seed sample_next32 sample_polar_factor train_seed sample_prior
    sample_base sample_out /\
  map row_Latitude sample_out = map Latitude sample_base /\
  map row_Longitude sample_out = map Longitude sample_base.
Proof.
  split; [exact (TrainProofs.sample_run sample_prior)|].
  exact (synthesize_keeps_coordinates sample_seed sample_next32 sample_polar_factor
           _ _ _ _ (TrainProofs.sample_run sample_prior)).
Defined.

(** X10 witness. *)
Lemma form_exceeds_training_witness :
  train_global Z sample_seed sample_next32 sample_polar_factor sample_prior sample_base sample_out /\
  Forall (fun r => TotalArea r <= 5000 /\ GarageCars r <= 3 /\ Bedrooms r <= 5)%Z sample_out /\
  (exists req, App.form_values_ok req = true /\ App.total_area req = 10000%Z /\
     App.garage_cars req = 4%Z /\ App.bedrooms req = 10%Z).
Proof.
  split; [exact (TrainProofs.sample_run sample_prior)|].
  exact (form_exceeds_training sample_seed sample_next32 sample_polar_factor
           _ _ _ (TrainProofs.sample_run sample_prior)).
Defined.

Lemma sample_choice :
  legacy_choice Z sample_next32 [0; 1]%Z [0; 1]%Q 1 sample_state0 [1%Z] (mkLegacy Z 2%Z false 0).
Proof.
  econstructor; [reflexivity | reflexivity |].
  constructor; [vm_compute; reflexivity | constructor].
Qed.

(** X11 witness: [choice([0, 1], size=1, p=[0, 1])]. *)
Lemma choice_skips_zero_p_witness :
  legacy_choice Z sample_next32 [0; 1]%Z [0; 1]%Q 1 sample_state0 [1%Z] (mkLegacy Z 2%Z false 0) /\
  Forall (fun x => exists i pi, nth_error [0; 1]%Z i = Some x /\
            nth_error [0; 1]%Q i = Some pi /\ (0 < pi)%Q) [1%Z].
Proof.
  split; [exact sample_choice|].
  exact (choice_skips_zero_p sample_next32 _ _ _ _ _ _ sample_choice).
Defined.

End TrainExtra.

(** ** Further properties of [src/app.py] *)

Module AppExtra.
Import App.







Definition sample_df : list (string * Q) :=
  input_df (3405 # 100) (-11825 # 100) 1500 2 3 10.


End AppExtra.
